(** * Form service: server actions of the form builder

    A shallow embedding of [src/actions/form.ts] (the nine server actions),
    of the zod schema [formSchema] they validate against, and of the part of
    the Prisma client the actions call ([create], [findUnique], [findMany],
    [update], [aggregate] on the [form] model), and of the handler
    [publishForm] of [src/components/PublishFormBtn.tsx].

    - The persistent store is a value of type [store]; every action is a
      function in the state-and-exception monad [action].
    - [await] is sequencing: each action issues its store calls one after the
      other and nothing else runs in between.
    - JavaScript strings are [string]s, one character per code unit.
    - The integer columns are [Z]. The two rates computed by [GetFormStats]
      are IEEE-754 doubles: values of [spec_float] at precision 53 and
      maximal exponent 1024, with the division, multiplication and
      subtraction of the Standard Library's [SpecFloat], each rounding to
      nearest, ties to even. *)

From Stdlib Require Import ZArith QArith SpecFloat Lia.
From stdpp Require Import base tactics option list sorting strings.

Open Scope Z_scope.

(** ** Data model *)

(** The object returned by Clerk's [currentUser()]; only [id] is read. *)
Module User.
Record t : Type := mk { id : string }.
End User.

(** Modelled from the spec: the Prisma schema (prisma/schema.prisma) is not
    among the sources. The columns of the [Form] model are the fields listed
    in the spec's data model. *)
Module Form.
Record t : Type := mk {
  id : Z;
  userId : string;
  createdAt : Z;
  published : bool;
  name : string;
  description : option string;
  content : string;
  visits : Z;
  submissions : Z;
  shareURL : string
}.

(** [data: { content: jsonContent }] *)
Definition set_content (c : string) (f : t) : t :=
  mk (id f) (userId f) (createdAt f) (published f) (name f) (description f)
     c (visits f) (submissions f) (shareURL f).

(** [data: { published: true }] *)
Definition set_published (b : bool) (f : t) : t :=
  mk (id f) (userId f) (createdAt f) b (name f) (description f)
     (content f) (visits f) (submissions f) (shareURL f).

(** [data: { visits: { increment: n } }] *)
Definition increment_visits (n : Z) (f : t) : t :=
  mk (id f) (userId f) (createdAt f) (published f) (name f) (description f)
     (content f) (visits f + n) (submissions f) (shareURL f).

(** [data: { submissions: { increment: n } }] *)
Definition increment_submissions (n : Z) (f : t) : t :=
  mk (id f) (userId f) (createdAt f) (published f) (name f) (description f)
     (content f) (visits f) (submissions f + n) (shareURL f).
End Form.

(** Modelled from the spec: the [FormSubmission] model of the absent Prisma
    schema, reached from a form through the relation field [FromSubmission]. *)
Module FormSubmission.
Record t : Type := mk {
  id : Z;
  createdAt : Z;
  formId : Z;
  content : string
}.
End FormSubmission.

(** The relational store: the two tables in insertion order and the two
    auto-increment sequences of the primary keys. *)
Record store : Type := mkStore {
  forms : list Form.t;
  formSubmissions : list FormSubmission.t;
  nextFormId : Z;
  nextSubmissionId : Z
}.

Definition empty_store : store := mkStore [] [] 1 1.

(** What a request gets from outside the store: the identity resolved by
    [currentUser()], the clock behind [now()] and the token drawn by
    [uuid()] should the request insert a form. *)
Record env : Type := mkEnv {
  currentUser : option User.t;
  now : Z;
  uuid : string
}.

(** ** Exceptions and the action monad *)

Inductive exn : Type :=
| UserNotFoundErr (message : string)   (* class UserNotFoundErr extends Error *)
| Error (message : string)             (* new Error(message) *)
| PrismaClientKnownRequestError (code : string).

(** Prisma: "An operation failed because it depends on one or more records
    that were required but not found." *)
Definition P2025 : exn := PrismaClientKnownRequestError "P2025".
(** Prisma: "Unique constraint failed". *)
Definition P2002 : exn := PrismaClientKnownRequestError "P2002".

Inductive result (A : Type) : Type :=
| Ok (a : A)
| Throw (e : exn).
Arguments Ok {A} a.
Arguments Throw {A} e.

Definition action (A : Type) : Type := store → result A * store.

#[export] Instance action_ret : MRet action := λ A a s, (Ok a, s).
#[export] Instance action_bind : MBind action := λ A B k m s,
  match m s with
  | (Ok a, s') => k a s'
  | (Throw e, s') => (Throw e, s')
  end.

Definition throw {A : Type} (e : exn) : action A := λ s, (Throw e, s).

(** ** The Prisma client, [prisma.form]

    The calls the actions make on the external Prisma client, with the
    behaviour Prisma documents for them: [findUnique] resolves to the row
    or [null], [update] throws P2025 when its where clause selects no row,
    a write either happens as a whole or not at all. *)

Module prisma.

(** Modelled from the spec: the column defaults of the absent Prisma schema.
    A form is created with visits = 0, submissions = 0, published = false and
    empty content; its id comes from the sequence, its share token from
    [uuid()], its creation time from [now()]. *)
Definition new_form (e : env) (s : store) (userId name : string)
    (description : option string) : Form.t :=
  Form.mk (nextFormId s) userId (now e) false name description ""
          0 0 (uuid e).

(** [prisma.form.create({ data: { userId, name, description } })]: the
    unique index on [shareURL] refuses a token that is already stored. *)
Definition create (e : env) (userId name : string)
    (description : option string) : action Form.t := λ s,
  if decide (uuid e ∈ Form.shareURL <$> forms s) then (Throw P2002, s)
  else
    let form := new_form e s userId name description in
    (Ok form,
     mkStore (forms s ++ [form]) (formSubmissions s)
             (nextFormId s + 1) (nextSubmissionId s)).

(** [prisma.form.findUnique({ where })]: the row or [null]. *)
Definition findUnique (where_ : Form.t → Prop)
    `{!∀ f, Decision (where_ f)} : action (option Form.t) := λ s,
  (Ok (snd <$> list_find where_ (forms s)), s).

(** [prisma.form.findUnique({ where, include: { FromSubmission: true } })]:
    the row together with the submissions whose [formId] is its [id]. *)
Definition findUnique_include (where_ : Form.t → Prop)
    `{!∀ f, Decision (where_ f)}
    : action (option (Form.t * list FormSubmission.t)) := λ s,
  (Ok ((λ r, (snd r,
              filter (λ sub, FormSubmission.formId sub = Form.id (snd r))
                     (formSubmissions s)))
       <$> list_find where_ (forms s)), s).

(** [prisma.form.update({ where, data })]: the updated row; P2025 when no
    row matches. *)
Definition update (where_ : Form.t → Prop) `{!∀ f, Decision (where_ f)}
    (data : Form.t → Form.t) : action Form.t := λ s,
  match list_find where_ (forms s) with
  | Some (i, f) =>
      (Ok (data f),
       mkStore (<[i := data f]> (forms s)) (formSubmissions s)
               (nextFormId s) (nextSubmissionId s))
  | None => (Throw P2025, s)
  end.

(** The nested write [FromSubmission: { create: { content } }] of an
    update, on the row the update matched. *)
Definition createSubmission (e : env) (formId : Z) (content : string)
    : action FormSubmission.t := λ s,
  let sub := FormSubmission.mk (nextSubmissionId s) (now e) formId content in
  (Ok sub,
   mkStore (forms s) (formSubmissions s ++ [sub])
           (nextFormId s) (nextSubmissionId s + 1)).

(** Stable insertion into a list sorted by [createdAt] descending. *)
Fixpoint insert_desc (f : Form.t) (l : list Form.t) : list Form.t :=
  match l with
  | [] => [f]
  | g :: l' =>
      if Form.createdAt g <? Form.createdAt f then f :: l
      else g :: insert_desc f l'
  end.

Definition sort_desc (l : list Form.t) : list Form.t :=
  foldr insert_desc [] l.

(** [prisma.form.findMany({ where, orderBy: { createdAt: "desc" } })] *)
Definition findMany (where_ : Form.t → Prop)
    `{!∀ f, Decision (where_ f)} : action (list Form.t) := λ s,
  (Ok (sort_desc (filter where_ (forms s))), s).

Definition sum (l : list Z) : Z := foldr Z.add 0 l.

(** [prisma.form.aggregate({ where, _sum: { visits: true, submissions:
    true } })]: each sum is [null] when no row matches. *)
Definition aggregate_sum (where_ : Form.t → Prop)
    `{!∀ f, Decision (where_ f)} : action (option Z * option Z) := λ s,
  match filter where_ (forms s) with
  | [] => (Ok (None, None), s)
  | rows => (Ok (Some (sum (Form.visits <$> rows)),
                 Some (sum (Form.submissions <$> rows))), s)
  end.

End prisma.

(** ** The schema, [formSchema]

    [z.object({ name: z.string().min(4), description:
    z.string().optional() })]. *)

Record formSchemaType : Type := mkData {
  name : string;
  description : option string
}.

Module formSchema.
(** The [success] field of [formSchema.safeParse(data)]. *)
Definition safeParse (data : formSchemaType) : bool :=
  bool_decide (4 ≤ String.length (name data))%nat.
End formSchema.

(** ** The actions *)

(** JavaScript numbers that are not integers of the store: binary64. *)
Module binary64.
(** The double nearest to the integer [n]. *)
Definition of_Z (n : Z) : spec_float := binary_normalize 53 1024 n 0 false.



End binary64.

Module Stats.
Record t : Type := mk {
  visits : Z;
  submissions : Z;
  submissionRate : spec_float;
  bounceRate : spec_float
}.
End Stats.

(** [n || 0] on [number | null]. *)
Definition or_zero (n : option Z) : Z :=
  match n with
  | Some n => if n =? 0 then 0 else n
  | None => 0
  end.

Definition owned_by (user : User.t) (f : Form.t) : Prop :=
  Form.userId f = User.id user.

(** [where: { userId: user.id, id }] *)
Definition where_user_id (user : User.t) (id : Z) (f : Form.t) : Prop :=
  Form.userId f = User.id user ∧ Form.id f = id.

(** [where: { shareURL: formUrl }] *)
Definition where_url (formUrl : string) (f : Form.t) : Prop :=
  Form.shareURL f = formUrl.

(** [where: { shareURL: formUrl, published: true }] *)
Definition where_url_published (formUrl : string) (f : Form.t) : Prop :=
  Form.shareURL f = formUrl ∧ Form.published f = true.

#[export] Instance owned_by_dec user f : Decision (owned_by user f).
Proof. unfold owned_by. apply _. Defined.
#[export] Instance where_user_id_dec user id f :
  Decision (where_user_id user id f).
Proof. unfold where_user_id. apply _. Defined.
#[export] Instance where_url_dec url f : Decision (where_url url f).
Proof. unfold where_url. apply _. Defined.
#[export] Instance where_url_published_dec url f :
  Decision (where_url_published url f).
Proof. unfold where_url_published. apply _. Defined.

Definition GetFormStats (e : env) : action Stats.t :=
  match currentUser e with
  | None => throw (UserNotFoundErr "User not found")
  | Some user =>
      stats ← prisma.aggregate_sum (owned_by user);
      let visits := or_zero (fst stats) in
      let submissions := or_zero (snd stats) in
      let submissionRate :=
        if 0 <? visits
        then SFmul 53 1024
               (SFdiv 53 1024 (binary64.of_Z submissions) (binary64.of_Z visits))
               (binary64.of_Z 100)
        else binary64.of_Z 0 in
      let bounceRate := SFsub 53 1024 (binary64.of_Z 100) submissionRate in
      mret (Stats.mk visits submissions submissionRate bounceRate)
  end.

(** [prisma.form.create] resolves to the created row, an object, so the
    guard [if (!form)] after it never fires. *)
Definition CreateForm (e : env) (data : formSchemaType) : action Z :=
  if negb (formSchema.safeParse data) then throw (Error "From is not valid")
  else
    match currentUser e with
    | None => throw (UserNotFoundErr "User not found")
    | Some user =>
        form ← prisma.create e (User.id user) (name data) (description data);
        mret (Form.id form)
    end.

Definition GetForm (e : env) : action (list Form.t) :=
  match currentUser e with
  | None => throw (UserNotFoundErr "User not found")
  | Some user => prisma.findMany (owned_by user)
  end.

Definition GetFormById (e : env) (id : Z) : action (option Form.t) :=
  match currentUser e with
  | None => throw (UserNotFoundErr "")
  | Some user => prisma.findUnique (where_user_id user id)
  end.

Definition UpdateFormContent (e : env) (id : Z) (jsonContent : string)
    : action Form.t :=
  match currentUser e with
  | None => throw (UserNotFoundErr "")
  | Some user =>
      prisma.update (where_user_id user id) (Form.set_content jsonContent)
  end.

Definition PublishForm (e : env) (id : Z) : action Form.t :=
  match currentUser e with
  | None => throw (UserNotFoundErr "")
  | Some user =>
      prisma.update (where_user_id user id) (Form.set_published true)
  end.

(** [select: { content: true }]: only the content of the updated row. *)
Definition GetFormContentByUrl (e : env) (formUrl : string) : action string :=
  form ← prisma.update (where_url formUrl) (Form.increment_visits 1);
  mret (Form.content form).

Definition SubmitForm (e : env) (formUrl content : string) : action Form.t :=
  form ← prisma.update (where_url_published formUrl)
                       (Form.increment_submissions 1);
  _ ← prisma.createSubmission e (Form.id form) content;
  mret form.

Definition GetFormWithSubmissions (e : env) (id : Z)
    : action (option (Form.t * list FormSubmission.t)) :=
  match currentUser e with
  | None => throw (UserNotFoundErr "")
  | Some user =>
      prisma.findUnique_include (where_user_id user id)
  end.

(** ** The action surface

    The nine exported actions as one request type, so that a property of
    "every operation" is a property of [serve]. *)

Inductive request : Type :=
| ReqGetFormStats
| ReqCreateForm (data : formSchemaType)
| ReqGetForm
| ReqGetFormById (id : Z)
| ReqUpdateFormContent (id : Z) (jsonContent : string)
| ReqPublishForm (id : Z)
| ReqGetFormContentByUrl (formUrl : string)
| ReqSubmitForm (formUrl content : string)
| ReqGetFormWithSubmissions (id : Z).

Inductive response : Type :=
| ResStats (stats : Stats.t)
| ResId (id : Z)
| ResForms (l : list Form.t)
| ResForm (f : Form.t)
| ResFormOrNull (f : option Form.t)
| ResContent (content : string)
| ResFormWithSubmissions (f : option (Form.t * list FormSubmission.t)).

Definition reply {A : Type} (wrap : A → response) (m : action A)
    : action response := λ s,
  match m s with
  | (Ok a, s') => (Ok (wrap a), s')
  | (Throw e, s') => (Throw e, s')
  end.

Definition serve (e : env) (r : request) : action response :=
  match r with
  | ReqGetFormStats => reply ResStats (GetFormStats e)
  | ReqCreateForm data => reply ResId (CreateForm e data)
  | ReqGetForm => reply ResForms (GetForm e)
  | ReqGetFormById id => reply ResFormOrNull (GetFormById e id)
  | ReqUpdateFormContent id c => reply ResForm (UpdateFormContent e id c)
  | ReqPublishForm id => reply ResForm (PublishForm e id)
  | ReqGetFormContentByUrl url => reply ResContent (GetFormContentByUrl e url)
  | ReqSubmitForm url c => reply ResForm (SubmitForm e url c)
  | ReqGetFormWithSubmissions id =>
      reply ResFormWithSubmissions (GetFormWithSubmissions e id)
  end.

(** The operations that resolve the current user. *)
Definition owner_scoped (r : request) : bool :=
  match r with
  | ReqGetFormContentByUrl _ | ReqSubmitForm _ _ => false
  | _ => true
  end.

(** The store after a sequence of requests, each with the environment it is
    served in. *)
Fixpoint run (trace : list (env * request)) (s : store) : store :=
  match trace with
  | [] => s
  | (e, r) :: trace' => run trace' (snd (serve e r s))
  end.

(** ** Store invariant

    What the relational store guarantees about the [Form] table: [id] is
    the primary key drawn from the auto-increment sequence, and [shareURL]
    carries a unique index. *)

Record wf (s : store) : Prop := mkWf {
  wf_id : NoDup (Form.id <$> forms s);
  wf_shareURL : NoDup (Form.shareURL <$> forms s);
  wf_next : Forall (λ f, Form.id f < nextFormId s) (forms s)
}.

(** The observations of one stored form that no operation may undo. *)
Definition evolves (f f' : Form.t) : Prop :=
  Form.id f' = Form.id f ∧
  Form.userId f' = Form.userId f ∧
  Form.shareURL f' = Form.shareURL f ∧
  Form.visits f ≤ Form.visits f' ∧
  Form.submissions f ≤ Form.submissions f' ∧
  (Form.published f = true → Form.published f' = true).

(** Row by row, [s'] holds a later version of every form of [s]. *)
Definition store_evolves (s s' : store) : Prop :=
  ∀ (i : nat) (f : Form.t), forms s !! i = Some f →
    ∃ f', forms s' !! i = Some f' ∧ evolves f f'.

(** ** Sample data *)

Definition alice : User.t := User.mk "user_alice".
Definition bob : User.t := User.mk "user_bob".

Definition as_alice : env := mkEnv (Some alice) 1000 "tok-2".
Definition as_bob : env := mkEnv (Some bob) 1001 "tok-3".
Definition anonymous : env := mkEnv None 1002 "tok-4".

Definition survey : Form.t :=
  Form.mk 1 "user_alice" 900 false "Survey" (Some "q1") "[]" 3 1 "tok-1".

Definition survey_store : store := mkStore [survey] [] 2 1.

Definition published_survey : Form.t := Form.set_published true survey.
Definition published_store : store := mkStore [published_survey] [] 2 1.

Definition quiz : Form.t :=
  Form.mk 2 "user_bob" 950 true "Quiz" None "[]" 5 1 "tok-5".
Definition answer : FormSubmission.t := FormSubmission.mk 1 960 2 "{}".
Definition shared_store : store := mkStore [survey; quiz] [answer] 3 2.



(** ** The publish button, [PublishFormBtn]

    What the button's handler does to the page: the toasts it raises and
    the refresh of the router, in order. *)

Inductive ui_effect : Type :=
| toast (title description : string)
| router_refresh.

Module PublishFormBtn.
(** [async function publishForm()]: [try { await PublishForm(id);
    toast(success); router.refresh(); } catch (error) { toast(error) }]. *)
Definition publishForm (e : env) (id : Z)
    : store → list ui_effect * store := λ s,
  match PublishForm e id s with
  | (Ok _, s') =>
      ([toast "Success" "Your form has been published!"; router_refresh], s')
  | (Throw _, s') =>
      ([toast "Error" "Something went wrong, please try again."], s')
  end.
End PublishFormBtn.

(** ** Consistency of the two tables *)

(** The stored submissions of the form with the given id: the rows that
    [include: { FromSubmission: true }] attaches to it. *)
Definition submissions_of (s : store) (id : Z) : list FormSubmission.t :=
  filter (λ sub, FormSubmission.formId sub = id) (formSubmissions s).

(** A submission is linked when its [formId] is the id of a stored,
    published form. *)
Definition linked (s : store) (sub : FormSubmission.t) : Prop :=
  ∃ f, f ∈ forms s ∧ Form.id f = FormSubmission.formId sub ∧
       Form.published f = true.

Record consistent (s : store) : Prop := mkConsistent {
  consistent_wf : wf s;
  consistent_counters :
    Forall (λ f, 0 ≤ Form.visits f ∧ 0 ≤ Form.submissions f) (forms s);
  consistent_count :
    Forall (λ f, Form.submissions f =
                 Z.of_nat (length (submissions_of s (Form.id f)))) (forms s);
  consistent_linked : Forall (linked s) (formSubmissions s)
}.

(** The four shapes a store write of the actions can take: none, a new
    form, one row replaced by a later version with the same submissions
    counter, or one published row counted up together with one new
    submission for it. *)
Inductive write (s : store) : store → Prop :=
| write_nothing : write s s
| write_form (form : Form.t) :
    Form.id form = nextFormId s →
    Form.visits form = 0 →
    Form.submissions form = 0 →
    write s (mkStore (forms s ++ [form]) (formSubmissions s)
                     (nextFormId s + 1) (nextSubmissionId s))
| write_row (i : nat) (f f' : Form.t) :
    forms s !! i = Some f →
    evolves f f' →
    Form.submissions f' = Form.submissions f →
    write s (mkStore (<[i := f']> (forms s)) (formSubmissions s)
                     (nextFormId s) (nextSubmissionId s))
| write_submission (i : nat) (f : Form.t) (sub : FormSubmission.t) :
    forms s !! i = Some f →
    Form.published f = true →
    FormSubmission.formId sub = Form.id f →
    write s (mkStore (<[i := Form.increment_submissions 1 f]> (forms s))
                     (formSubmissions s ++ [sub])
                     (nextFormId s) (nextSubmissionId s + 1)).

(** The requests that only read, by their name and return type. *)
Definition reads_only (r : request) : bool :=
  match r with
  | ReqGetFormStats | ReqGetForm | ReqGetFormById _
  | ReqGetFormWithSubmissions _ => true
  | _ => false
  end.

(** [orderBy: { createdAt: "desc" }] *)
Definition newest_first (f g : Form.t) : Prop :=
  Form.createdAt g ≤ Form.createdAt f.

(** ** Lookup by a unique key *)

Section unique_key.
Context {A K : Type} (key : A → K) (P : A → Prop) `{!∀ x, Decision (P x)}.

(** When the where clause fixes the value of a unique column, the row it
    selects is the only row that satisfies it. *)
Lemma list_find_unique (l : list A) (i : nat) (x : A) (k : K) :
  NoDup (key <$> l) →
  (∀ y, P y → key y = k) →
  l !! i = Some x → P x →
  list_find P l = Some (i, x).
Proof.
  intros Hnd Hkey Hi HP.
  apply list_find_Some. split_and!; [done | done |].
  intros j y Hj Hlt HPy.
  assert (j = i) as ->; [| lia].
  eapply NoDup_lookup; [exact Hnd | |].
  - rewrite list_lookup_fmap, Hj. simpl. reflexivity.
  - rewrite list_lookup_fmap, Hi. simpl. f_equal.
    rewrite (Hkey y HPy), (Hkey x HP). reflexivity.
Qed.

Lemma list_find_absent (l : list A) :
  (∀ y, y ∈ l → ¬ P y) → list_find P l = None.
Proof.
  intros Hno. apply list_find_None, Forall_forall. exact Hno.
Qed.
End unique_key.

(** Overwriting a row with one that has the same value in a column leaves
    that column of the table as it was. *)
Lemma fmap_insert_same {A K : Type} (key : A → K) (l : list A) i x y :
  l !! i = Some x → key y = key x → key <$> <[i := y]> l = key <$> l.
Proof.
  intros Hi Hk. rewrite list_fmap_insert, Hk.
  apply list_insert_id. rewrite list_lookup_fmap, Hi. reflexivity.
Qed.

(** ** The update primitive *)

Section update.
Context (P : Form.t → Prop) `{!∀ f, Decision (P f)} (data : Form.t → Form.t).

Lemma update_found s i f :
  list_find P (forms s) = Some (i, f) →
  prisma.update P data s =
    (Ok (data f),
     mkStore (<[i := data f]> (forms s)) (formSubmissions s)
             (nextFormId s) (nextSubmissionId s)).
Proof. intros Hfind. unfold prisma.update. rewrite Hfind. reflexivity. Qed.

Lemma update_missing s :
  (∀ f, f ∈ forms s → ¬ P f) → prisma.update P data s = (Throw P2025, s).
Proof.
  intros Hno. unfold prisma.update.
  rewrite (list_find_absent P _ Hno). reflexivity.
Qed.

Lemma update_evolves s :
  (∀ f, evolves f (data f)) → store_evolves s (snd (prisma.update P data s)).
Proof.
  intros Hdata i f Hi. unfold prisma.update.
  destruct (list_find P (forms s)) as [[j g]|] eqn:Hfind; simpl.
  - apply list_find_Some in Hfind as (Hj & _ & _).
    destruct (decide (i = j)) as [->|Hne].
    + exists (data g). split.
      * apply list_lookup_insert_eq. eapply lookup_lt_Some, Hj.
      * replace f with g by congruence. apply Hdata.
    + exists f. split.
      * rewrite list_lookup_insert_ne by done. exact Hi.
      * unfold evolves. split_and!; first [reflexivity | lia | done].
  - exists f. split; [exact Hi |].
    unfold evolves. split_and!; first [reflexivity | lia | done].
Qed.

Lemma update_wf s :
  (∀ f, evolves f (data f)) → wf s → wf (snd (prisma.update P data s)).
Proof.
  intros Hdata [Hid Hurl Hnext]. unfold prisma.update.
  destruct (list_find P (forms s)) as [[j g]|] eqn:Hfind; simpl;
    [| by constructor].
  apply list_find_Some in Hfind as (Hj & _ & _).
  destruct (Hdata g) as (Eid & _ & Eurl & _).
  constructor; simpl.
  - by rewrite (fmap_insert_same Form.id _ _ g).
  - by rewrite (fmap_insert_same Form.shareURL _ _ g).
  - apply Forall_insert; [exact Hnext |].
    rewrite Eid. eapply (Forall_lookup_1 _ _ _ _ Hnext Hj).
Qed.
End update.

(** ** One request *)

Lemma evolves_refl f : evolves f f.
Proof. unfold evolves. split_and!; first [reflexivity | lia | done]. Qed.

Lemma evolves_trans f g h : evolves f g → evolves g h → evolves f h.
Proof.
  unfold evolves. intros (?&?&?&?&?&?) (?&?&?&?&?&?).
  split_and!; first [congruence | lia | auto].
Qed.

Lemma evolves_set_content c f : evolves f (Form.set_content c f).
Proof. unfold evolves. simpl. split_and!; first [reflexivity | lia | done]. Qed.

Lemma evolves_set_published f : evolves f (Form.set_published true f).
Proof. unfold evolves. simpl. split_and!; first [reflexivity | lia | done]. Qed.

Lemma evolves_increment_visits f : evolves f (Form.increment_visits 1 f).
Proof. unfold evolves. simpl. split_and!; first [reflexivity | lia | done]. Qed.

Lemma evolves_increment_submissions f :
  evolves f (Form.increment_submissions 1 f).
Proof. unfold evolves. simpl. split_and!; first [reflexivity | lia | done]. Qed.

Lemma store_evolves_refl s : store_evolves s s.
Proof. intros i f Hi. exists f. split; [done | apply evolves_refl]. Qed.

Lemma store_evolves_trans s1 s2 s3 :
  store_evolves s1 s2 → store_evolves s2 s3 → store_evolves s1 s3.
Proof.
  intros H12 H23 i f Hi.
  destruct (H12 i f Hi) as (g & Hg & Efg).
  destruct (H23 i g Hg) as (h & Hh & Egh).
  exists h. split; [done | by eapply evolves_trans].
Qed.

Lemma create_evolves e u n d s :
  store_evolves s (snd (prisma.create e u n d s)).
Proof.
  unfold prisma.create. case_decide; simpl; [apply store_evolves_refl |].
  intros i f Hi. exists f. split; [| apply evolves_refl].
  by apply lookup_app_l_Some.
Qed.

Lemma create_wf e u n d s : wf s → wf (snd (prisma.create e u n d s)).
Proof.
  intros [Hid Hurl Hnext]. unfold prisma.create.
  case_decide as Hfresh; simpl; [by constructor |].
  constructor; simpl.
  - rewrite fmap_app. apply NoDup_app. split_and!; [done | | apply NoDup_singleton].
    intros x Hx Hx'. apply list_elem_of_singleton in Hx'. simpl in Hx'. subst x.
    apply list_elem_of_fmap in Hx as (f & Ef & Hf).
    pose proof (proj1 (Forall_forall _ _) Hnext f Hf) as Hlt. simpl in Hlt. lia.
  - rewrite fmap_app. apply NoDup_app. split_and!; [done | | apply NoDup_singleton].
    intros x Hx Hx'. apply list_elem_of_singleton in Hx'. simpl in Hx'. subst x.
    contradiction.
  - apply Forall_app. split.
    + eapply Forall_impl; [exact Hnext |]. simpl. intros. lia.
    + apply Forall_singleton. simpl. lia.
Qed.

(** Every action, served on any store in any environment, leaves a later
    version of every stored form in place. *)
Lemma serve_evolves e r s : store_evolves s (snd (serve e r s)).
Proof.
  destruct r; simpl; unfold reply.
  - unfold GetFormStats. destruct (currentUser e); [| apply store_evolves_refl].
    unfold mbind, action_bind, prisma.aggregate_sum.
    destruct (filter _ _); simpl; apply store_evolves_refl.
  - unfold CreateForm.
    destruct (negb _); [apply store_evolves_refl |].
    destruct (currentUser e) as [u|]; [| apply store_evolves_refl].
    unfold mbind, action_bind.
    pose proof (create_evolves e (User.id u) (name data) (description data) s) as Hc.
    destruct (prisma.create _ _ _ _ s) as [[form|err] s']; exact Hc.
  - unfold GetForm. destruct (currentUser e); apply store_evolves_refl.
  - unfold GetFormById. destruct (currentUser e); apply store_evolves_refl.
  - unfold UpdateFormContent.
    destruct (currentUser e) as [u|]; [| apply store_evolves_refl].
    pose proof (update_evolves (where_user_id u id) (Form.set_content jsonContent) s
                  (evolves_set_content jsonContent)) as Hu.
    destruct (prisma.update _ _ s) as [[form|err] s']; exact Hu.
  - unfold PublishForm.
    destruct (currentUser e) as [u|]; [| apply store_evolves_refl].
    pose proof (update_evolves (where_user_id u id) (Form.set_published true) s
                  evolves_set_published) as Hu.
    destruct (prisma.update _ _ s) as [[form|err] s']; exact Hu.
  - unfold GetFormContentByUrl, mbind, action_bind.
    pose proof (update_evolves (where_url formUrl) (Form.increment_visits 1) s
                  evolves_increment_visits) as Hu.
    destruct (prisma.update _ _ s) as [[form|err] s']; exact Hu.
  - unfold SubmitForm, mbind, action_bind.
    pose proof (update_evolves (where_url_published formUrl)
                  (Form.increment_submissions 1) s
                  evolves_increment_submissions) as Hu.
    destruct (prisma.update _ _ s) as [[form|err] s']; exact Hu.
  - unfold GetFormWithSubmissions.
    destruct (currentUser e); apply store_evolves_refl.
Qed.

(** Every action preserves the store invariant. *)
Lemma serve_wf e r s : wf s → wf (snd (serve e r s)).
Proof.
  intros Hwf. destruct r; simpl; unfold reply.
  - unfold GetFormStats. destruct (currentUser e); [| done].
    unfold mbind, action_bind, prisma.aggregate_sum.
    destruct (filter _ _); simpl; done.
  - unfold CreateForm.
    destruct (negb _); [done |].
    destruct (currentUser e) as [u|]; [| done].
    unfold mbind, action_bind.
    pose proof (create_wf e (User.id u) (name data) (description data) s Hwf) as Hc.
    destruct (prisma.create _ _ _ _ s) as [[form|err] s']; exact Hc.
  - unfold GetForm. by destruct (currentUser e).
  - unfold GetFormById. by destruct (currentUser e).
  - unfold UpdateFormContent.
    destruct (currentUser e) as [u|]; [| done].
    pose proof (update_wf (where_user_id u id) (Form.set_content jsonContent) s
                  (evolves_set_content jsonContent) Hwf) as Hu.
    destruct (prisma.update _ _ s) as [[form|err] s']; exact Hu.
  - unfold PublishForm.
    destruct (currentUser e) as [u|]; [| done].
    pose proof (update_wf (where_user_id u id) (Form.set_published true) s
                  evolves_set_published Hwf) as Hu.
    destruct (prisma.update _ _ s) as [[form|err] s']; exact Hu.
  - unfold GetFormContentByUrl, mbind, action_bind.
    pose proof (update_wf (where_url formUrl) (Form.increment_visits 1) s
                  evolves_increment_visits Hwf) as Hu.
    destruct (prisma.update _ _ s) as [[form|err] s']; exact Hu.
  - unfold SubmitForm, mbind, action_bind.
    pose proof (update_wf (where_url_published formUrl)
                  (Form.increment_submissions 1) s
                  evolves_increment_submissions Hwf) as Hu.
    destruct (prisma.update _ _ s) as [[form|err] s']; [| exact Hu].
    simpl. destruct Hu. by constructor.
  - unfold GetFormWithSubmissions. by destruct (currentUser e).
Qed.

(** ** Sequences of requests *)

Lemma run_evolves trace : ∀ s, store_evolves s (run trace s).
Proof.
  induction trace as [|[e r] trace IH]; intros s; simpl.
  - apply store_evolves_refl.
  - eapply store_evolves_trans; [apply serve_evolves | apply IH].
Qed.

Lemma run_wf trace : ∀ s, wf s → wf (run trace s).
Proof.
  induction trace as [|[e r] trace IH]; intros s Hwf; simpl; [done |].
  apply IH, serve_wf, Hwf.
Qed.

Lemma wf_empty_store : wf empty_store.
Proof. constructor; simpl; constructor. Qed.

(** Every store reached from the empty one satisfies the invariant. *)
Lemma reachable_wf trace : wf (run trace empty_store).
Proof. apply run_wf, wf_empty_store. Qed.

Lemma wf_survey_store : wf survey_store.
Proof.
  constructor; simpl.
  - apply NoDup_singleton.
  - apply NoDup_singleton.
  - apply Forall_singleton. simpl. lia.
Defined.

Lemma wf_published_store : wf published_store.
Proof.
  constructor; simpl.
  - apply NoDup_singleton.
  - apply NoDup_singleton.
  - apply Forall_singleton. simpl. lia.
Defined.

(** ** Ownership *)

(** In a well-formed store the where clause [{ userId, id }] of a user other
    than the owner of the form with that id selects nothing. *)
Lemma foreign_id_selects_nothing s (u : User.t) (f : Form.t) :
  wf s → f ∈ forms s → Form.userId f ≠ User.id u →
  ∀ g, g ∈ forms s → ¬ where_user_id u (Form.id f) g.
Proof.
  intros [Hid _ _] Hf Hother g Hg [Hu Hsame].
  apply list_elem_of_lookup in Hf as [i Hi].
  apply list_elem_of_lookup in Hg as [j Hj].
  assert (i = j) as ->.
  { eapply NoDup_lookup; [exact Hid | |].
    - rewrite list_lookup_fmap, Hi. reflexivity.
    - rewrite list_lookup_fmap, Hj. simpl. by rewrite Hsame. }
  congruence.
Qed.

(** C1. For an authenticated user [u] and a stored form [f] owned by someone
    else, [GetFormById], [UpdateFormContent] and [PublishForm] called by [u]
    with the id of [f] find nothing ([null], respectively Prisma's
    record-not-found error P2025) and leave the whole store, hence [f],
    as it was. *)
Theorem owner_scoped_ops_hide_foreign_forms
    (e : env) (s : store) (u : User.t) (f : Form.t) (content : string) :
  wf s →
  currentUser e = Some u →
  f ∈ forms s →
  Form.userId f ≠ User.id u →
  GetFormById e (Form.id f) s = (Ok None, s) ∧
  UpdateFormContent e (Form.id f) content s = (Throw P2025, s) ∧
  PublishForm e (Form.id f) s = (Throw P2025, s).
Proof.
  intros Hwf Hu Hf Hother.
  pose proof (foreign_id_selects_nothing s u f Hwf Hf Hother) as Hnone.
  unfold GetFormById, UpdateFormContent, PublishForm. rewrite Hu.
  split_and!.
  - unfold prisma.findUnique.
    by rewrite (list_find_absent _ _ Hnone).
  - by apply update_missing.
  - by apply update_missing.
Qed.

Lemma owner_scoped_ops_hide_foreign_forms_witness :
  GetFormById as_bob 1 survey_store = (Ok None, survey_store) ∧
  UpdateFormContent as_bob 1 "[1]" survey_store = (Throw P2025, survey_store) ∧
  PublishForm as_bob 1 survey_store = (Throw P2025, survey_store).
Proof.
  apply (owner_scoped_ops_hide_foreign_forms as_bob survey_store bob survey "[1]").
  - exact wf_survey_store.
  - reflexivity.
  - apply list_elem_of_here.
  - vm_compute. discriminate.
Defined.

(** ** Updates through a unique column *)

Lemma update_by_url (data : Form.t → Form.t) s i f :
  wf s → forms s !! i = Some f →
  prisma.update (where_url (Form.shareURL f)) data s =
    (Ok (data f),
     mkStore (<[i := data f]> (forms s)) (formSubmissions s)
             (nextFormId s) (nextSubmissionId s)).
Proof.
  intros [_ Hurl _] Hi. apply update_found.
  apply (list_find_unique Form.shareURL _ _ _ _ (Form.shareURL f));
    [done | by intros y Hy | done | done].
Qed.

Lemma update_by_url_published (data : Form.t → Form.t) s i f :
  wf s → forms s !! i = Some f → Form.published f = true →
  prisma.update (where_url_published (Form.shareURL f)) data s =
    (Ok (data f),
     mkStore (<[i := data f]> (forms s)) (formSubmissions s)
             (nextFormId s) (nextSubmissionId s)).
Proof.
  intros [_ Hurl _] Hi Hpub. apply update_found.
  apply (list_find_unique Form.shareURL _ _ _ _ (Form.shareURL f));
    [done | by intros y [Hy _] | done | done].
Qed.

Lemma update_by_user_id (data : Form.t → Form.t) s (u : User.t) i f :
  wf s → forms s !! i = Some f → Form.userId f = User.id u →
  prisma.update (where_user_id u (Form.id f)) data s =
    (Ok (data f),
     mkStore (<[i := data f]> (forms s)) (formSubmissions s)
             (nextFormId s) (nextSubmissionId s)).
Proof.
  intros [Hid _ _] Hi Hown. apply update_found.
  apply (list_find_unique Form.id _ _ _ _ (Form.id f));
    [done | by intros y [_ Hy] | done | done].
Qed.

(** ** Public operations *)

(** C2. [SubmitForm] on a share URL of a stored, published form [f] (row [i]
    of the table) returns [f] with its submissions counter one higher, puts
    that row in place of [f], changes no other row, and appends exactly one
    submission, which carries the id of [f] and the given content. When no
    stored form has the share URL, or the one that has it is unpublished,
    [SubmitForm] throws Prisma's record-not-found error P2025 and the store
    (both tables) stays as it was. *)
Theorem SubmitForm_spec (e : env) (formUrl content : string) (s : store) :
  wf s →
  (∀ (i : nat) (f : Form.t),
     forms s !! i = Some f →
     Form.shareURL f = formUrl →
     Form.published f = true →
     ∃ (f' : Form.t) (sub : FormSubmission.t),
       SubmitForm e formUrl content s =
         (Ok f',
          mkStore (<[i := f']> (forms s)) (formSubmissions s ++ [sub])
                  (nextFormId s) (nextSubmissionId s + 1)) ∧
       f' = Form.increment_submissions 1 f ∧
       Form.submissions f' = Form.submissions f + 1 ∧
       Form.visits f' = Form.visits f ∧
       FormSubmission.formId sub = Form.id f ∧
       FormSubmission.content sub = content) ∧
  ((∀ f, f ∈ forms s → Form.shareURL f = formUrl → Form.published f = false) →
   SubmitForm e formUrl content s = (Throw P2025, s)).
Proof.
  intros Hwf. split.
  - intros i f Hi <- Hpub.
    exists (Form.increment_submissions 1 f),
      (FormSubmission.mk (nextSubmissionId s) (now e) (Form.id f) content).
    split_and!; try reflexivity.
    unfold SubmitForm, mbind, action_bind.
    by rewrite (update_by_url_published _ s i f Hwf Hi Hpub).
  - intros Hno. unfold SubmitForm, mbind, action_bind.
    rewrite update_missing; [reflexivity |].
    intros f Hf [Hurl Hpub]. rewrite (Hno f Hf Hurl) in Hpub. discriminate.
Qed.

Lemma SubmitForm_spec_witness :
  (∃ f' sub,
     SubmitForm anonymous "tok-1" "{}" published_store =
       (Ok f', mkStore [f'] [sub] 2 2) ∧
     f' = Form.increment_submissions 1 published_survey ∧
     Form.submissions f' = 2 ∧
     Form.visits f' = 3 ∧
     FormSubmission.formId sub = 1 ∧
     FormSubmission.content sub = "{}") ∧
  SubmitForm anonymous "tok-1" "{}" survey_store = (Throw P2025, survey_store).
Proof.
  split.
  - apply (proj1 (SubmitForm_spec anonymous "tok-1" "{}" published_store
                    wf_published_store) 0%nat published_survey);
      reflexivity.
  - apply (proj2 (SubmitForm_spec anonymous "tok-1" "{}" survey_store
                    wf_survey_store)).
    intros f Hf _. apply list_elem_of_singleton in Hf. subst f. reflexivity.
Defined.

(** C3. [GetFormContentByUrl] on the share URL of a stored form [f] (row
    [i]), published or not, returns the content of [f] and puts [f] with its
    visits counter one higher in its place, changing nothing else. When no
    stored form has the share URL it throws Prisma's record-not-found error
    P2025 and the store stays as it was. *)
Theorem GetFormContentByUrl_spec (e : env) (formUrl : string) (s : store) :
  wf s →
  (∀ (i : nat) (f : Form.t),
     forms s !! i = Some f →
     Form.shareURL f = formUrl →
     ∃ f' : Form.t,
       GetFormContentByUrl e formUrl s =
         (Ok (Form.content f),
          mkStore (<[i := f']> (forms s)) (formSubmissions s)
                  (nextFormId s) (nextSubmissionId s)) ∧
       f' = Form.increment_visits 1 f ∧
       Form.visits f' = Form.visits f + 1) ∧
  ((∀ f, f ∈ forms s → Form.shareURL f ≠ formUrl) →
   GetFormContentByUrl e formUrl s = (Throw P2025, s)).
Proof.
  intros Hwf. split.
  - intros i f Hi <-.
    exists (Form.increment_visits 1 f). split_and!; try reflexivity.
    unfold GetFormContentByUrl, mbind, action_bind.
    by rewrite (update_by_url _ s i f Hwf Hi).
  - intros Hno. unfold GetFormContentByUrl, mbind, action_bind.
    rewrite update_missing; [reflexivity |].
    intros f Hf Hurl. exact (Hno f Hf Hurl).
Qed.

Lemma GetFormContentByUrl_spec_witness :
  (∃ f',
     GetFormContentByUrl anonymous "tok-1" survey_store =
       (Ok "[]", mkStore [f'] [] 2 1) ∧
     f' = Form.increment_visits 1 survey ∧
     Form.visits f' = 4) ∧
  GetFormContentByUrl anonymous "tok-9" survey_store =
    (Throw P2025, survey_store).
Proof.
  split.
  - apply (proj1 (GetFormContentByUrl_spec anonymous "tok-1" survey_store
                    wf_survey_store) 0%nat survey);
      reflexivity.
  - apply (proj2 (GetFormContentByUrl_spec anonymous "tok-9" survey_store
                    wf_survey_store)).
    intros f Hf. apply list_elem_of_singleton in Hf. subst f.
    vm_compute. discriminate.
Defined.

(** ** Statistics *)








(** ** Creation *)

(** C5. [CreateForm] with a name shorter than 4 throws the validation error
    [Error "From is not valid"] and the store stays as it was. With a name of
    length at least 4, a resolved user [u] and a share token that is not yet
    stored, it appends one form to the table, owned by [u], with the given
    name and description and an id no stored form has, leaves every existing
    row in place, and returns that id. *)
Theorem CreateForm_spec (e : env) (data : formSchemaType) (s : store) :
  ((String.length (name data) < 4)%nat →
   CreateForm e data s = (Throw (Error "From is not valid"), s)) ∧
  (∀ u : User.t,
     (4 ≤ String.length (name data))%nat →
     currentUser e = Some u →
     wf s →
     uuid e ∉ Form.shareURL <$> forms s →
     ∃ form : Form.t,
       CreateForm e data s =
         (Ok (Form.id form),
          mkStore (forms s ++ [form]) (formSubmissions s)
                  (nextFormId s + 1) (nextSubmissionId s)) ∧
       Form.userId form = User.id u ∧
       Form.name form = name data ∧
       Form.description form = description data ∧
       Form.id form ∉ Form.id <$> forms s).
Proof.
  split.
  - intros Hshort. unfold CreateForm, formSchema.safeParse.
    rewrite bool_decide_eq_false_2 by lia. reflexivity.
  - intros u Hlong Hu [_ _ Hnext] Hfresh.
    exists (prisma.new_form e s (User.id u) (name data) (description data)).
    split_and!; try reflexivity.
    + unfold CreateForm, formSchema.safeParse.
      rewrite bool_decide_eq_true_2 by lia. simpl. rewrite Hu.
      unfold mbind, action_bind, prisma.create.
      rewrite decide_False by exact Hfresh. reflexivity.
    + simpl. intros Hin. apply list_elem_of_fmap in Hin as (g & Eg & Hg).
      pose proof (proj1 (Forall_forall _ _) Hnext g Hg) as Hlt.
      simpl in Hlt. lia.
Qed.

Lemma CreateForm_spec_witness :
  CreateForm as_alice (mkData "abc" None) survey_store =
    (Throw (Error "From is not valid"), survey_store) ∧
  ∃ form : Form.t,
    CreateForm as_alice (mkData "Poll" (Some "q1")) survey_store =
      (Ok (Form.id form), mkStore [survey; form] [] 3 1) ∧
    Form.userId form = "user_alice" ∧
    Form.name form = "Poll" ∧
    Form.description form = Some "q1" ∧
    Form.id form ∉ [1].
Proof.
  split.
  - apply (proj1 (CreateForm_spec as_alice (mkData "abc" None) survey_store)).
    simpl. lia.
  - apply (proj2 (CreateForm_spec as_alice (mkData "Poll" (Some "q1"))
                    survey_store) alice).
    + simpl. lia.
    + reflexivity.
    + exact wf_survey_store.
    + simpl. intros Hin. apply list_elem_of_singleton in Hin. discriminate.
Defined.

(** C10. [CreateForm] validates before it resolves the user: with a name
    shorter than 4 and no current user it throws the validation error
    [Error "From is not valid"], not [UserNotFoundErr], and the store stays as
    it was. *)
Theorem CreateForm_validates_first (e : env) (data : formSchemaType) (s : store) :
  (String.length (name data) < 4)%nat →
  currentUser e = None →
  CreateForm e data s = (Throw (Error "From is not valid"), s) ∧
  ∀ message, fst (CreateForm e data s) ≠ Throw (UserNotFoundErr message).
Proof.
  intros Hshort _.
  assert (CreateForm e data s = (Throw (Error "From is not valid"), s)) as Heq.
  { unfold CreateForm, formSchema.safeParse.
    rewrite bool_decide_eq_false_2 by lia. reflexivity. }
  split; [exact Heq |]. intros message. rewrite Heq. simpl. discriminate.
Qed.

Lemma CreateForm_validates_first_witness :
  CreateForm anonymous (mkData "abc" None) survey_store =
    (Throw (Error "From is not valid"), survey_store) ∧
  ∀ message,
    fst (CreateForm anonymous (mkData "abc" None) survey_store)
      ≠ Throw (UserNotFoundErr message).
Proof.
  apply (CreateForm_validates_first anonymous (mkData "abc" None) survey_store).
  - simpl. lia.
  - reflexivity.
Defined.

(** ** Authentication *)

(** C7. An owner-scoped request ([CreateForm] with input that passes the
    schema, [GetForm], [GetFormById], [UpdateFormContent], [PublishForm],
    [GetFormWithSubmissions], [GetFormStats]) served while no current user
    is resolved throws [UserNotFoundErr] and the store stays as it was. *)
Theorem owner_scoped_requires_user (e : env) (r : request) (s : store) :
  currentUser e = None →
  owner_scoped r = true →
  (∀ data, r = ReqCreateForm data → formSchema.safeParse data = true) →
  ∃ message, serve e r s = (Throw (UserNotFoundErr message), s).
Proof.
  intros Hnone Hscoped Hvalid.
  destruct r; simpl in Hscoped; try discriminate; simpl; unfold reply.
  - exists "User not found". unfold GetFormStats. by rewrite Hnone.
  - exists "User not found". unfold CreateForm.
    rewrite (Hvalid data eq_refl). simpl. by rewrite Hnone.
  - exists "User not found". unfold GetForm. by rewrite Hnone.
  - exists "". unfold GetFormById. by rewrite Hnone.
  - exists "". unfold UpdateFormContent. by rewrite Hnone.
  - exists "". unfold PublishForm. by rewrite Hnone.
  - exists "". unfold GetFormWithSubmissions. by rewrite Hnone.
Qed.

Lemma owner_scoped_requires_user_witness :
  ∃ message,
    serve anonymous (ReqCreateForm (mkData "Poll" None)) survey_store =
      (Throw (UserNotFoundErr message), survey_store).
Proof.
  apply (owner_scoped_requires_user anonymous
           (ReqCreateForm (mkData "Poll" None)) survey_store).
  - reflexivity.
  - reflexivity.
  - intros data Hdata. injection Hdata as <-. reflexivity.
Defined.

(** ** Content updates *)

(** C9. For an authenticated user [u]: when no stored form has both the
    given id and owner [u], [UpdateFormContent] throws Prisma's
    record-not-found error P2025 and the store stays as it was; when the
    form [f] (row [i]) has the id and is owned by [u], it returns [f] with
    the given content and puts that row in place of [f], changing nothing
    else. *)
Theorem UpdateFormContent_spec
    (e : env) (u : User.t) (id : Z) (jsonContent : string) (s : store) :
  wf s →
  currentUser e = Some u →
  ((∀ f, f ∈ forms s → Form.id f = id → Form.userId f ≠ User.id u) →
   UpdateFormContent e id jsonContent s = (Throw P2025, s)) ∧
  (∀ (i : nat) (f : Form.t),
     forms s !! i = Some f →
     Form.id f = id →
     Form.userId f = User.id u →
     ∃ f' : Form.t,
       UpdateFormContent e id jsonContent s =
         (Ok f',
          mkStore (<[i := f']> (forms s)) (formSubmissions s)
                  (nextFormId s) (nextSubmissionId s)) ∧
       f' = Form.set_content jsonContent f ∧
       Form.content f' = jsonContent).
Proof.
  intros Hwf Hu. unfold UpdateFormContent. rewrite Hu. split.
  - intros Hno. apply update_missing.
    intros f Hf [Hown Hid]. exact (Hno f Hf Hid Hown).
  - intros i f Hi <- Hown.
    exists (Form.set_content jsonContent f). split_and!; try reflexivity.
    by apply update_by_user_id.
Qed.

Lemma UpdateFormContent_spec_witness :
  UpdateFormContent as_alice 7 "[1]" survey_store = (Throw P2025, survey_store) ∧
  ∃ f' : Form.t,
    UpdateFormContent as_alice 1 "[1]" survey_store =
      (Ok f', mkStore [f'] [] 2 1) ∧
    f' = Form.set_content "[1]" survey ∧
    Form.content f' = "[1]".
Proof.
  split.
  - apply (proj1 (UpdateFormContent_spec as_alice alice 7 "[1]" survey_store
                    wf_survey_store eq_refl)).
    intros f Hf. apply list_elem_of_singleton in Hf. subst f.
    vm_compute. discriminate.
  - apply (proj2 (UpdateFormContent_spec as_alice alice 1 "[1]" survey_store
                    wf_survey_store eq_refl) 0%nat survey);
      reflexivity.
Defined.

(** ** Publishing *)

(** C6. [PublishForm] on the id of a form [f] (row [i]) owned by the current
    user returns [f] with published = true and stores it in place of [f];
    a second call on the resulting store returns the same form and leaves
    that store as it is. And along any sequence of requests, a stored form
    that is published stays stored, under the same id, and published. *)
Theorem publish_one_way :
  (∀ (e : env) (u : User.t) (s : store) (i : nat) (f : Form.t),
     wf s →
     currentUser e = Some u →
     forms s !! i = Some f →
     Form.userId f = User.id u →
     ∃ (f' : Form.t) (s' : store),
       PublishForm e (Form.id f) s = (Ok f', s') ∧
       forms s' = <[i := f']> (forms s) ∧
       f' = Form.set_published true f ∧
       Form.published f' = true ∧
       PublishForm e (Form.id f) s' = (Ok f', s')) ∧
  (∀ (trace : list (env * request)) (s : store) (i : nat) (f : Form.t),
     forms s !! i = Some f →
     Form.published f = true →
     ∃ f' : Form.t,
       forms (run trace s) !! i = Some f' ∧
       Form.id f' = Form.id f ∧
       Form.published f' = true).
Proof.
  split.
  - intros e u s i f Hwf Hu Hi Hown.
    pose (f' := Form.set_published true f).
    pose (s' := mkStore (<[i := f']> (forms s)) (formSubmissions s)
                        (nextFormId s) (nextSubmissionId s)).
    assert (PublishForm e (Form.id f) s = (Ok f', s')) as Hfirst.
    { unfold PublishForm. rewrite Hu. by apply update_by_user_id. }
    exists f', s'. split_and!; try done.
    assert (wf s') as Hwf'.
    { pose proof (serve_wf e (ReqPublishForm (Form.id f)) s Hwf) as H'.
      simpl in H'. unfold reply in H'. by rewrite Hfirst in H'. }
    assert (forms s' !! i = Some f') as Hi'.
    { simpl. apply list_lookup_insert_eq. eapply lookup_lt_Some, Hi. }
    unfold PublishForm. rewrite Hu.
    change (Form.id f) with (Form.id f').
    rewrite (update_by_user_id _ s' u i f' Hwf' Hi' Hown).
    unfold s'. simpl. by rewrite list_insert_insert_eq.
  - intros trace s i f Hi Hpub.
    destruct (run_evolves trace s i f Hi) as (f' & Hi' & Eid & _ & _ & _ & _ & Epub).
    exists f'. auto.
Qed.

Lemma publish_one_way_witness :
  (∃ (f' : Form.t) (s' : store),
     PublishForm as_alice 1 survey_store = (Ok f', s') ∧
     forms s' = [f'] ∧
     f' = published_survey ∧
     Form.published f' = true ∧
     PublishForm as_alice 1 s' = (Ok f', s')) ∧
  (∃ f' : Form.t,
     forms (run [(as_alice, ReqUpdateFormContent 1 "[1]");
                 (anonymous, ReqSubmitForm "tok-1" "{}")] published_store)
       !! 0%nat = Some f' ∧
     Form.id f' = 1 ∧
     Form.published f' = true).
Proof.
  split.
  - apply (proj1 publish_one_way as_alice alice survey_store 0%nat survey).
    + exact wf_survey_store.
    + reflexivity.
    + reflexivity.
    + reflexivity.
  - apply (proj2 publish_one_way
             [(as_alice, ReqUpdateFormContent 1 "[1]");
              (anonymous, ReqSubmitForm "tok-1" "{}")]
             published_store 0%nat published_survey).
    + reflexivity.
    + reflexivity.
Defined.

(** ** Invariants of a stored form *)

(** C8. Along any sequence of requests (in particular, across any single
    operation) a stored form stays stored in its row with the same id and
    the same userId, and its visits and submissions counters do not
    decrease. *)
Theorem userId_fixed_counters_monotone
    (trace : list (env * request)) (s : store) (i : nat) (f : Form.t) :
  forms s !! i = Some f →
  ∃ f' : Form.t,
    forms (run trace s) !! i = Some f' ∧
    Form.id f' = Form.id f ∧
    Form.userId f' = Form.userId f ∧
    Form.visits f ≤ Form.visits f' ∧
    Form.submissions f ≤ Form.submissions f'.
Proof.
  intros Hi.
  destruct (run_evolves trace s i f Hi) as (f' & Hi' & Eid & Eu & _ & Hv & Hs & _).
  exists f'. auto.
Qed.

Lemma userId_fixed_counters_monotone_witness :
  ∃ f' : Form.t,
    forms (run [(anonymous, ReqGetFormContentByUrl "tok-1");
                (as_bob, ReqUpdateFormContent 1 "[]");
                (as_alice, ReqPublishForm 1);
                (anonymous, ReqSubmitForm "tok-1" "{}")] survey_store)
      !! 0%nat = Some f' ∧
    Form.id f' = Form.id survey ∧
    Form.userId f' = Form.userId survey ∧
    Form.visits survey ≤ Form.visits f' ∧
    Form.submissions survey ≤ Form.submissions f'.
Proof.
  apply (userId_fixed_counters_monotone
           [(anonymous, ReqGetFormContentByUrl "tok-1");
            (as_bob, ReqUpdateFormContent 1 "[]");
            (as_alice, ReqPublishForm 1);
            (anonymous, ReqSubmitForm "tok-1" "{}")] survey_store 0%nat survey).
  reflexivity.
Defined.

(** ** What a request writes *)

Lemma update_write (P : Form.t → Prop) `{!∀ f, Decision (P f)} data s :
  (∀ f, evolves f (data f)) →
  (∀ f, Form.submissions (data f) = Form.submissions f) →
  write s (snd (prisma.update P data s)).
Proof.
  intros Hev Hsub. unfold prisma.update.
  destruct (list_find P (forms s)) as [[i f]|] eqn:Hfind; simpl.
  - apply list_find_Some in Hfind as (Hi & _ & _).
    by apply (write_row s i f (data f)).
  - apply write_nothing.
Qed.

Lemma serve_write e r s : write s (snd (serve e r s)).
Proof.
  destruct r; simpl; unfold reply.
  - unfold GetFormStats. destruct (currentUser e); [| apply write_nothing].
    unfold mbind, action_bind, prisma.aggregate_sum.
    destruct (filter _ _); simpl; apply write_nothing.
  - unfold CreateForm.
    destruct (negb _); [apply write_nothing |].
    destruct (currentUser e) as [u|]; [| apply write_nothing].
    unfold mbind, action_bind, prisma.create.
    case_decide; simpl; [apply write_nothing |].
    by apply write_form.
  - unfold GetForm. destruct (currentUser e); apply write_nothing.
  - unfold GetFormById. destruct (currentUser e); apply write_nothing.
  - unfold UpdateFormContent.
    destruct (currentUser e) as [u|]; [| apply write_nothing].
    pose proof (update_write (where_user_id u id) (Form.set_content jsonContent) s
                  (evolves_set_content jsonContent) (λ f, eq_refl)) as Hu.
    destruct (prisma.update _ _ s) as [[form|err] s']; exact Hu.
  - unfold PublishForm.
    destruct (currentUser e) as [u|]; [| apply write_nothing].
    pose proof (update_write (where_user_id u id) (Form.set_published true) s
                  evolves_set_published (λ f, eq_refl)) as Hu.
    destruct (prisma.update _ _ s) as [[form|err] s']; exact Hu.
  - unfold GetFormContentByUrl, mbind, action_bind.
    pose proof (update_write (where_url formUrl) (Form.increment_visits 1) s
                  evolves_increment_visits (λ f, eq_refl)) as Hu.
    destruct (prisma.update _ _ s) as [[form|err] s']; exact Hu.
  - unfold SubmitForm, mbind, action_bind, prisma.update.
    destruct (list_find _ (forms s)) as [[i f]|] eqn:Hfind; simpl;
      [| apply write_nothing].
    apply list_find_Some in Hfind as (Hi & [_ Hpub] & _).
    by apply (write_submission s i f).
  - unfold GetFormWithSubmissions.
    destruct (currentUser e); apply write_nothing.
Qed.

(** ** Consistency is kept *)

Lemma filter_nothing {A : Type} (P : A → Prop) `{!∀ x, Decision (P x)} (l : list A) :
  (∀ x, x ∈ l → ¬ P x) → filter P l = [].
Proof.
  induction l as [|x l IH]; intros Hno; [done |].
  rewrite filter_cons_False; [| apply Hno, list_elem_of_here].
  apply IH. intros y Hy. apply Hno. by apply list_elem_of_further.
Qed.

Lemma evolved_member s s' f :
  store_evolves s s' → f ∈ forms s → ∃ f', f' ∈ forms s' ∧ evolves f f'.
Proof.
  intros Hev Hf. apply list_elem_of_lookup in Hf as [i Hi].
  destruct (Hev i f Hi) as (f' & Hi' & Hf').
  exists f'. split; [| done]. apply list_elem_of_lookup. by exists i.
Qed.

Lemma linked_evolves s s' sub : store_evolves s s' → linked s sub → linked s' sub.
Proof.
  intros Hev (f & Hf & Hid & Hpub).
  destruct (evolved_member s s' f Hev Hf) as (f' & Hf' & Eid & _ & _ & _ & _ & Epub).
  exists f'. split_and!; [done | congruence | auto].
Qed.

Lemma no_submissions_of_next s :
  wf s → Forall (linked s) (formSubmissions s) →
  submissions_of s (nextFormId s) = [].
Proof.
  intros [_ _ Hnext] Hlinked. unfold submissions_of.
  apply filter_nothing. intros sub Hsub Hid.
  destruct (proj1 (Forall_forall _ _) Hlinked sub Hsub) as (f & Hf & Ef & _).
  pose proof (proj1 (Forall_forall _ _) Hnext f Hf) as Hlt. simpl in Hlt. lia.
Qed.

Lemma write_consistent s s' :
  store_evolves s s' → wf s' → write s s' → consistent s → consistent s'.
Proof.
  intros Hev Hwf' Hw [Hwf Hcnt Hcount Hlinked].
  destruct Hw as [|form Hid Hv Hs|i f f' Hi Ef Hs|i f sub Hi Hpub Hsub].
  - by constructor.
  - constructor; simpl; [done | | |].
    + apply Forall_app. split; [done |]. apply Forall_singleton. lia.
    + apply Forall_app. split; [exact Hcount |]. apply Forall_singleton.
      rewrite Hs, Hid.
      change (submissions_of _ (nextFormId s))
        with (submissions_of s (nextFormId s)).
      by rewrite no_submissions_of_next.
    + eapply Forall_impl; [exact Hlinked |]. intros sub. by apply linked_evolves.
  - destruct Ef as (Eid & _ & _ & Hvis & _ & _).
    pose proof (Forall_lookup_1 _ _ _ _ Hcnt Hi) as [Hv0 Hs0].
    pose proof (Forall_lookup_1 _ _ _ _ Hcount Hi) as Hn. simpl in Hn.
    constructor; simpl; [done | | |].
    + apply Forall_insert; [done |]. lia.
    + apply Forall_insert; [exact Hcount |]. by rewrite Hs, Eid.
    + eapply Forall_impl; [exact Hlinked |]. intros sub. by apply linked_evolves.
  - pose proof (Forall_lookup_1 _ _ _ _ Hcnt Hi) as [Hv0 Hs0].
    constructor; simpl; [done | | |].
    + apply Forall_insert; [done |]. simpl. lia.
    + apply Forall_lookup. intros j g Hj.
      unfold submissions_of. simpl. rewrite filter_app, length_app.
      destruct (decide (j = i)) as [->|Hne].
      * rewrite list_lookup_insert_eq in Hj by (eapply lookup_lt_Some, Hi).
        injection Hj as <-. simpl.
        rewrite filter_cons_True by done. simpl.
        pose proof (Forall_lookup_1 _ _ _ _ Hcount Hi) as Hn. simpl in Hn.
        unfold submissions_of in Hn. lia.
      * rewrite list_lookup_insert_ne in Hj by done.
        rewrite filter_cons_False.
        -- pose proof (Forall_lookup_1 _ _ _ _ Hcount Hj) as Hn. simpl in Hn.
           unfold submissions_of in Hn. simpl. lia.
        -- intros Heq. apply Hne. destruct Hwf as [Hnd _ _].
           eapply NoDup_lookup; [exact Hnd | |].
           ++ rewrite list_lookup_fmap, Hj. reflexivity.
           ++ rewrite list_lookup_fmap, Hi. simpl. congruence.
    + apply Forall_app. split.
      * eapply Forall_impl; [exact Hlinked |]. intros sub'. by apply linked_evolves.
      * apply Forall_singleton.
        exists (Form.increment_submissions 1 f). split_and!; [| done | done].
        apply list_elem_of_lookup. exists i. simpl.
        apply list_lookup_insert_eq. eapply lookup_lt_Some, Hi.
Qed.

Lemma serve_consistent e r s : consistent s → consistent (snd (serve e r s)).
Proof.
  intros Hc. eapply write_consistent; [| | | exact Hc].
  - apply serve_evolves.
  - apply serve_wf, Hc.
  - apply serve_write.
Qed.

Lemma run_consistent trace : ∀ s, consistent s → consistent (run trace s).
Proof.
  induction trace as [|[e r] trace IH]; intros s Hc; simpl; [done |].
  apply IH, serve_consistent, Hc.
Qed.

Lemma consistent_empty_store : consistent empty_store.
Proof. constructor; simpl; [apply wf_empty_store | constructor ..]. Qed.


Lemma wf_shared_store : wf shared_store.
Proof.
  constructor; simpl.
  - apply (bool_decide_unpack _). vm_compute. exact I.
  - apply (bool_decide_unpack _). vm_compute. exact I.
  - apply (bool_decide_unpack _). vm_compute. exact I.
Defined.

(** ** Reachable stores *)

(** X1. In every store reached from the empty one, the submissions counter
    of each form is the number of stored submissions that carry its id. *)
Theorem submissions_counter_counts_rows (trace : list (env * request)) :
  Forall (λ f, Form.submissions f =
               Z.of_nat (length (submissions_of (run trace empty_store)
                                                (Form.id f))))
         (forms (run trace empty_store)).
Proof.
  assert (consistent (run trace empty_store)) as Hc.
  { apply run_consistent, consistent_empty_store. }
  exact (consistent_count _ Hc).
Qed.

(** X2. In every store reached from the empty one, each stored submission
    carries the id of a stored form, and that form is published. *)
Theorem submissions_belong_to_published_forms (trace : list (env * request)) :
  Forall (λ sub, ∃ f, f ∈ forms (run trace empty_store) ∧
                      Form.id f = FormSubmission.formId sub ∧
                      Form.published f = true)
         (formSubmissions (run trace empty_store)).
Proof.
  assert (consistent (run trace empty_store)) as Hc.
  { apply run_consistent, consistent_empty_store. }
  exact (consistent_linked _ Hc).
Qed.









(** X4. For an authenticated user who owns no stored form, [GetFormStats]
    returns visits = 0, submissions = 0, submissionRate = 0 and
    bounceRate = 100: the [null] sums of the empty aggregate are read as 0
    and nothing is divided. *)
Theorem GetFormStats_no_forms (e : env) (u : User.t) (s : store) :
  currentUser e = Some u →
  (∀ f, f ∈ forms s → Form.userId f ≠ User.id u) →
  GetFormStats e s =
    (Ok (Stats.mk 0 0 (binary64.of_Z 0) (binary64.of_Z 100)), s).
Proof.
  intros Hu Hnone. unfold GetFormStats. rewrite Hu.
  unfold mbind, action_bind, prisma.aggregate_sum.
  rewrite (filter_nothing (owned_by u) (forms s)) by exact Hnone.
  reflexivity.
Qed.

Lemma GetFormStats_no_forms_witness :
  GetFormStats as_bob survey_store =
    (Ok (Stats.mk 0 0 (binary64.of_Z 0) (binary64.of_Z 100)), survey_store).
Proof.
  apply (GetFormStats_no_forms as_bob bob survey_store).
  - reflexivity.
  - intros f Hf. apply list_elem_of_singleton in Hf. subst f.
    vm_compute. discriminate.
Defined.

(** ** Listing *)

Lemma insert_desc_perm f l : prisma.insert_desc f l ≡ₚ f :: l.
Proof.
  induction l as [|g l IH]; simpl; [done |].
  destruct (Form.createdAt g <? Form.createdAt f); [done |].
  rewrite IH. apply Permutation_swap.
Qed.

Lemma sort_desc_perm l : prisma.sort_desc l ≡ₚ l.
Proof.
  induction l as [|f l IH]; simpl; [done |].
  rewrite insert_desc_perm. by rewrite IH.
Qed.

Lemma insert_desc_sorted f l :
  StronglySorted newest_first l →
  StronglySorted newest_first (prisma.insert_desc f l).
Proof.
  induction 1 as [|g l Hl IH Hg]; simpl.
  - repeat constructor.
  - destruct (Z.ltb_spec (Form.createdAt g) (Form.createdAt f)) as [Hlt|Hge].
    + constructor; [by constructor |].
      constructor; [unfold newest_first; lia |].
      eapply Forall_impl; [exact Hg |].
      unfold newest_first. intros h Hh. lia.
    + constructor; [exact IH |].
      rewrite insert_desc_perm. constructor; [exact Hge | exact Hg].
Qed.

Lemma sort_desc_sorted l : StronglySorted newest_first (prisma.sort_desc l).
Proof.
  induction l as [|f l IH]; simpl; [constructor |].
  by apply insert_desc_sorted.
Qed.

(** X5. For an authenticated user [u], [GetForm] leaves the store alone and
    returns a rearrangement of exactly the stored forms owned by [u] (each
    as often as it is stored, no form of anyone else), ordered by
    [createdAt] from newest to oldest. *)
Theorem GetForm_newest_first (e : env) (u : User.t) (s : store) :
  currentUser e = Some u →
  ∃ l : list Form.t,
    GetForm e s = (Ok l, s) ∧
    l ≡ₚ filter (λ f, Form.userId f = User.id u) (forms s) ∧
    (∀ f, f ∈ l ↔ f ∈ forms s ∧ Form.userId f = User.id u) ∧
    StronglySorted (λ f g, Form.createdAt g ≤ Form.createdAt f) l.
Proof.
  intros Hu. unfold GetForm. rewrite Hu.
  exists (prisma.sort_desc (filter (owned_by u) (forms s))).
  split_and!.
  - reflexivity.
  - apply sort_desc_perm.
  - intros f. rewrite sort_desc_perm, list_elem_of_filter.
    unfold owned_by. tauto.
  - apply sort_desc_sorted.
Qed.

Lemma GetForm_newest_first_witness :
  ∃ l : list Form.t,
    GetForm as_alice shared_store = (Ok l, shared_store) ∧
    l ≡ₚ filter (λ f, Form.userId f = User.id alice) (forms shared_store) ∧
    (∀ f, f ∈ l ↔ f ∈ forms shared_store ∧ Form.userId f = User.id alice) ∧
    StronglySorted (λ f g, Form.createdAt g ≤ Form.createdAt f) l.
Proof. apply (GetForm_newest_first as_alice alice shared_store). reflexivity. Defined.

(** ** A form with its submissions *)

Lemma find_by_user_id s (u : User.t) i f :
  wf s → forms s !! i = Some f → Form.userId f = User.id u →
  list_find (where_user_id u (Form.id f)) (forms s) = Some (i, f).
Proof.
  intros [Hid _ _] Hi Hown.
  apply (list_find_unique Form.id _ _ _ _ (Form.id f));
    [done | by intros y [_ Hy] | done | done].
Qed.

(** X6. For an authenticated user [u], [GetFormWithSubmissions] on the id of
    a stored form [f] owned by [u] returns [f] together with exactly the
    stored submissions whose formId is that id, in the order they were
    stored; on an id that no form of [u] has it returns [null]. The store
    stays as it was in both cases. *)
Theorem GetFormWithSubmissions_spec
    (e : env) (u : User.t) (id : Z) (s : store) :
  wf s →
  currentUser e = Some u →
  (∀ (i : nat) (f : Form.t),
     forms s !! i = Some f →
     Form.id f = id →
     Form.userId f = User.id u →
     ∃ subs : list FormSubmission.t,
       GetFormWithSubmissions e id s = (Ok (Some (f, subs)), s) ∧
       subs = filter (λ sub, FormSubmission.formId sub = id)
                     (formSubmissions s) ∧
       (∀ sub, sub ∈ subs ↔
               sub ∈ formSubmissions s ∧ FormSubmission.formId sub = id)) ∧
  ((∀ f, f ∈ forms s → Form.id f = id → Form.userId f ≠ User.id u) →
   GetFormWithSubmissions e id s = (Ok None, s)).
Proof.
  intros Hwf Hu.
  unfold GetFormWithSubmissions, prisma.findUnique_include. rewrite Hu. split.
  - intros i f Hi <- Hown. eexists. split_and!; [| reflexivity |].
    + by rewrite (find_by_user_id s u i f Hwf Hi Hown).
    + intros sub. rewrite list_elem_of_filter. tauto.
  - intros Hno. rewrite list_find_absent; [reflexivity |].
    intros f Hf [Hown Hid]. exact (Hno f Hf Hid Hown).
Qed.

Lemma GetFormWithSubmissions_spec_witness :
  (∃ subs : list FormSubmission.t,
     GetFormWithSubmissions as_bob 2 shared_store =
       (Ok (Some (quiz, subs)), shared_store) ∧
     subs = filter (λ sub, FormSubmission.formId sub = 2)
                   (formSubmissions shared_store) ∧
     (∀ sub, sub ∈ subs ↔
             sub ∈ formSubmissions shared_store ∧
             FormSubmission.formId sub = 2)) ∧
  GetFormWithSubmissions as_bob 1 shared_store = (Ok None, shared_store).
Proof.
  split.
  - apply (proj1 (GetFormWithSubmissions_spec as_bob bob 2 shared_store
                    wf_shared_store eq_refl) 1%nat quiz);
      reflexivity.
  - apply (proj2 (GetFormWithSubmissions_spec as_bob bob 1 shared_store
                    wf_shared_store eq_refl)).
    intros f Hf Hid Hown.
    apply elem_of_cons in Hf as [->|Hf].
    + vm_compute in Hown. discriminate.
    + apply list_elem_of_singleton in Hf. subst f. vm_compute in Hid. discriminate.
Defined.

(** ** Reads *)

(** X8. [GetFormStats], [GetForm], [GetFormById] and
    [GetFormWithSubmissions] only read: served for any caller on any store,
    each of them leaves the store as it was. *)
Theorem reads_leave_store_unchanged (e : env) (r : request) (s : store) :
  reads_only r = true → snd (serve e r s) = s.
Proof.
  intros Hr. destruct r; simpl in Hr; try discriminate; simpl; unfold reply.
  - unfold GetFormStats. destruct (currentUser e); [| done].
    unfold mbind, action_bind, prisma.aggregate_sum.
    destruct (filter _ _); simpl; done.
  - unfold GetForm. by destruct (currentUser e).
  - unfold GetFormById. by destruct (currentUser e).
  - unfold GetFormWithSubmissions. by destruct (currentUser e).
Qed.

Lemma reads_leave_store_unchanged_witness :
  snd (serve as_alice (ReqGetFormWithSubmissions 1) shared_store) = shared_store.
Proof.
  apply (reads_leave_store_unchanged as_alice (ReqGetFormWithSubmissions 1)
           shared_store).
  reflexivity.
Defined.

(** ** Who may change what *)

Lemma update_row_cases (P : Form.t → Prop) `{!∀ f, Decision (P f)} data s i f :
  forms s !! i = Some f →
  forms (snd (prisma.update P data s)) !! i = Some f ∨
  (P f ∧ forms (snd (prisma.update P data s)) !! i = Some (data f)).
Proof.
  intros Hi. unfold prisma.update.
  destruct (list_find P (forms s)) as [[j g]|] eqn:Hfind; simpl; [| by left].
  apply list_find_Some in Hfind as (Hj & HP & _).
  destruct (decide (i = j)) as [->|Hne].
  - right. replace g with f in * by congruence. split; [done |].
    apply list_lookup_insert_eq. eapply lookup_lt_Some, Hi.
  - left. by rewrite list_lookup_insert_ne.
Qed.

(** X9. An owner-scoped request leaves every row of other users exactly as
    it was: whatever id or content the caller passes, a stored form whose
    userId is not the caller's (or any stored form, when no user is
    resolved) is the same row afterwards. *)
Theorem owner_scoped_request_spares_foreign_rows
    (e : env) (r : request) (s : store) (i : nat) (f : Form.t) :
  owner_scoped r = true →
  forms s !! i = Some f →
  (∀ u, currentUser e = Some u → Form.userId f ≠ User.id u) →
  forms (snd (serve e r s)) !! i = Some f.
Proof.
  intros Hr Hi Hforeign.
  destruct r; simpl in Hr; try discriminate; simpl; unfold reply.
  - unfold GetFormStats. destruct (currentUser e); [| done].
    unfold mbind, action_bind, prisma.aggregate_sum.
    destruct (filter _ _); simpl; done.
  - unfold CreateForm. destruct (negb _); [done |].
    destruct (currentUser e) as [u|]; [| done].
    unfold mbind, action_bind, prisma.create.
    case_decide; simpl; [done |]. by apply lookup_app_l_Some.
  - unfold GetForm. by destruct (currentUser e).
  - unfold GetFormById. by destruct (currentUser e).
  - unfold UpdateFormContent. destruct (currentUser e) as [u|]; [| done].
    destruct (update_row_cases (where_user_id u id)
                (Form.set_content jsonContent) s i f Hi) as [Hsame|[[Hown _] _]].
    + by destruct (prisma.update _ _ s) as [[form|err] s'].
    + by destruct (Hforeign u eq_refl).
  - unfold PublishForm. destruct (currentUser e) as [u|]; [| done].
    destruct (update_row_cases (where_user_id u id)
                (Form.set_published true) s i f Hi) as [Hsame|[[Hown _] _]].
    + by destruct (prisma.update _ _ s) as [[form|err] s'].
    + by destruct (Hforeign u eq_refl).
  - unfold GetFormWithSubmissions. by destruct (currentUser e).
Qed.

Lemma owner_scoped_request_spares_foreign_rows_witness :
  forms (snd (serve as_alice (ReqUpdateFormContent 2 "[1]") shared_store))
    !! 1%nat = Some quiz.
Proof.
  apply (owner_scoped_request_spares_foreign_rows as_alice
           (ReqUpdateFormContent 2 "[1]") shared_store 1%nat quiz).
  - reflexivity.
  - reflexivity.
  - intros u Hu. injection Hu as <-. vm_compute. discriminate.
Defined.

(** X10. The two public requests, [GetFormContentByUrl] and [SubmitForm],
    change nothing of a stored form but its visits and submissions
    counters: id, owner, creation time, published flag, name, description,
    content and share URL of every row are afterwards what they were. *)
Theorem public_request_changes_only_counters
    (e : env) (r : request) (s : store) (i : nat) (f : Form.t) :
  owner_scoped r = false →
  forms s !! i = Some f →
  ∃ visits submissions : Z,
    forms (snd (serve e r s)) !! i =
      Some (Form.mk (Form.id f) (Form.userId f) (Form.createdAt f)
                    (Form.published f) (Form.name f) (Form.description f)
                    (Form.content f) visits submissions (Form.shareURL f)).
Proof.
  intros Hr Hi.
  destruct r; simpl in Hr; try discriminate; simpl; unfold reply.
  - unfold GetFormContentByUrl, mbind, action_bind.
    destruct (update_row_cases (where_url formUrl)
                (Form.increment_visits 1) s i f Hi) as [Hrow|[_ Hrow]];
      destruct (prisma.update _ _ s) as [[form|err] s']; simpl in *;
      rewrite Hrow; destruct f; simpl; eauto.
  - unfold SubmitForm, mbind, action_bind.
    destruct (update_row_cases (where_url_published formUrl)
                (Form.increment_submissions 1) s i f Hi) as [Hrow|[_ Hrow]];
      destruct (prisma.update _ _ s) as [[form|err] s']; simpl in *;
      rewrite Hrow; destruct f; simpl; eauto.
Qed.

Lemma public_request_changes_only_counters_witness :
  ∃ visits submissions : Z,
    forms (snd (serve anonymous (ReqSubmitForm "tok-5" "{}") shared_store))
      !! 1%nat =
      Some (Form.mk 2 "user_bob" 950 true "Quiz" None "[]"
                    visits submissions "tok-5").
Proof.
  apply (public_request_changes_only_counters anonymous
           (ReqSubmitForm "tok-5" "{}") shared_store 1%nat quiz).
  - reflexivity.
  - reflexivity.
Defined.

(** X11. Stored submissions are never removed, changed or reordered: along
    any sequence of requests the submissions table only grows at its end. *)
Theorem submissions_append_only (trace : list (env * request)) (s : store) :
  formSubmissions s `prefix_of` formSubmissions (run trace s).
Proof.
  revert s. induction trace as [|[e r] trace IH]; intros s; simpl; [done |].
  etrans; [| apply IH].
  destruct (serve_write e r s); simpl; try done.
  by apply prefix_app_r.
Qed.

(** ** Operations in sequence *)

Lemma same_url_same_row s i f g :
  wf s → forms s !! i = Some f → g ∈ forms s →
  Form.shareURL g = Form.shareURL f → g = f.
Proof.
  intros [_ Hurl _] Hi Hg Heq.
  apply list_elem_of_lookup in Hg as [j Hj].
  assert (j = i) as ->; [| congruence].
  eapply NoDup_lookup; [exact Hurl | |].
  - rewrite list_lookup_fmap, Hj. reflexivity.
  - rewrite list_lookup_fmap, Hi. simpl. by rewrite Heq.
Qed.

Lemma updated_store_wf (data : Form.t → Form.t) s i f :
  evolves f (data f) → wf s → forms s !! i = Some f →
  wf (mkStore (<[i := data f]> (forms s)) (formSubmissions s)
              (nextFormId s) (nextSubmissionId s)).
Proof.
  intros (Eid & _ & Eurl & _) [Hid Hurl Hnext] Hi.
  constructor; simpl.
  - by rewrite (fmap_insert_same Form.id _ _ f).
  - by rewrite (fmap_insert_same Form.shareURL _ _ f).
  - apply Forall_insert; [exact Hnext |].
    rewrite Eid. apply (Forall_lookup_1 _ _ _ _ Hnext Hi).
Qed.

(** X12. A created form can be read back: when [CreateForm] succeeds for
    user [u] and returns an id, [GetFormById] with that id, called by [u] on
    the resulting store, returns a form with that id, owned by [u], with the
    name and description that were passed in. *)
Theorem CreateForm_then_GetFormById
    (e e' : env) (u : User.t) (data : formSchemaType) (s : store) :
  wf s →
  (4 ≤ String.length (name data))%nat →
  currentUser e = Some u →
  currentUser e' = Some u →
  uuid e ∉ Form.shareURL <$> forms s →
  ∃ (id : Z) (form : Form.t) (s' : store),
    CreateForm e data s = (Ok id, s') ∧
    GetFormById e' id s' = (Ok (Some form), s') ∧
    Form.id form = id ∧
    Form.userId form = User.id u ∧
    Form.name form = name data ∧
    Form.description form = description data.
Proof.
  intros Hwf Hlong Hu Hu' Hfresh.
  set (form := prisma.new_form e s (User.id u) (name data) (description data)).
  set (s' := mkStore (forms s ++ [form]) (formSubmissions s)
                     (nextFormId s + 1) (nextSubmissionId s)).
  assert (CreateForm e data s = (Ok (Form.id form), s')) as Hcreate.
  { unfold CreateForm, formSchema.safeParse.
    rewrite bool_decide_eq_true_2 by lia. simpl. rewrite Hu.
    unfold mbind, action_bind, prisma.create.
    rewrite decide_False by exact Hfresh. reflexivity. }
  assert (wf s') as Hwf'.
  { pose proof (create_wf e (User.id u) (name data) (description data) s Hwf) as H'.
    unfold prisma.create in H'. by rewrite decide_False in H' by exact Hfresh. }
  assert (forms s' !! length (forms s) = Some form) as Hlast.
  { simpl. apply list_lookup_middle. reflexivity. }
  exists (Form.id form), form, s'. split_and!; try reflexivity; [exact Hcreate |].
  unfold GetFormById, prisma.findUnique. rewrite Hu'.
  by rewrite (find_by_user_id s' u _ form Hwf' Hlast eq_refl).
Qed.

Lemma CreateForm_then_GetFormById_witness :
  ∃ (id : Z) (form : Form.t) (s' : store),
    CreateForm as_alice (mkData "Poll" None) shared_store = (Ok id, s') ∧
    GetFormById as_alice id s' = (Ok (Some form), s') ∧
    Form.id form = id ∧
    Form.userId form = User.id alice ∧
    Form.name form = "Poll" ∧
    Form.description form = None.
Proof.
  apply (CreateForm_then_GetFormById as_alice as_alice alice
           (mkData "Poll" None) shared_store).
  - exact wf_shared_store.
  - simpl. lia.
  - reflexivity.
  - reflexivity.
  - apply (bool_decide_unpack _). vm_compute. exact I.
Defined.

(** X13. Content written by [UpdateFormContent] is what is read afterwards:
    when user [u] overwrites the content of a form they own, [GetFormById]
    by [u] returns the form that the update returned, with the new content,
    and the public [GetFormContentByUrl] on its share URL returns the new
    content too, whether or not the form is published. *)
Theorem UpdateFormContent_then_read
    (e e' : env) (u : User.t) (jsonContent : string)
    (s : store) (i : nat) (f : Form.t) :
  wf s →
  currentUser e = Some u →
  forms s !! i = Some f →
  Form.userId f = User.id u →
  ∃ (f' : Form.t) (s' : store),
    UpdateFormContent e (Form.id f) jsonContent s = (Ok f', s') ∧
    GetFormById e (Form.id f) s' = (Ok (Some f'), s') ∧
    Form.content f' = jsonContent ∧
    fst (GetFormContentByUrl e' (Form.shareURL f) s') = Ok jsonContent.
Proof.
  intros Hwf Hu Hi Hown.
  set (f' := Form.set_content jsonContent f).
  set (s' := mkStore (<[i := f']> (forms s)) (formSubmissions s)
                     (nextFormId s) (nextSubmissionId s)).
  assert (wf s') as Hwf'.
  { apply updated_store_wf; [apply evolves_set_content | done | done]. }
  assert (forms s' !! i = Some f') as Hi'.
  { simpl. apply list_lookup_insert_eq. eapply lookup_lt_Some, Hi. }
  exists f', s'. split_and!.
  - unfold UpdateFormContent. rewrite Hu. by apply update_by_user_id.
  - unfold GetFormById, prisma.findUnique. rewrite Hu.
    change (Form.id f) with (Form.id f').
    by rewrite (find_by_user_id s' u i f' Hwf' Hi' Hown).
  - reflexivity.
  - unfold GetFormContentByUrl, mbind, action_bind.
    change (Form.shareURL f) with (Form.shareURL f').
    by rewrite (update_by_url _ s' i f' Hwf' Hi').
Qed.

Lemma UpdateFormContent_then_read_witness :
  ∃ (f' : Form.t) (s' : store),
    UpdateFormContent as_alice 1 "[7]" shared_store = (Ok f', s') ∧
    GetFormById as_alice 1 s' = (Ok (Some f'), s') ∧
    Form.content f' = "[7]" ∧
    fst (GetFormContentByUrl anonymous "tok-1" s') = Ok "[7]".
Proof.
  apply (UpdateFormContent_then_read as_alice anonymous alice "[7]"
           shared_store 0%nat survey).
  - exact wf_shared_store.
  - reflexivity.
  - reflexivity.
  - reflexivity.
Defined.

(** X14. Publishing is what opens a form to submissions: on the share URL
    of an unpublished form [SubmitForm] throws P2025 and changes nothing;
    once its owner has called [PublishForm], the same [SubmitForm] succeeds,
    returns the form with its submissions counter one higher and published,
    and stores one more submission. *)
Theorem publish_opens_submissions
    (e e' : env) (u : User.t) (content : string)
    (s : store) (i : nat) (f : Form.t) :
  wf s →
  currentUser e = Some u →
  forms s !! i = Some f →
  Form.userId f = User.id u →
  Form.published f = false →
  SubmitForm e' (Form.shareURL f) content s = (Throw P2025, s) ∧
  ∃ (f1 : Form.t) (s1 : store) (f2 : Form.t) (s2 : store),
    PublishForm e (Form.id f) s = (Ok f1, s1) ∧
    SubmitForm e' (Form.shareURL f) content s1 = (Ok f2, s2) ∧
    Form.published f2 = true ∧
    Form.submissions f2 = Form.submissions f + 1 ∧
    length (formSubmissions s2) = S (length (formSubmissions s)).
Proof.
  intros Hwf Hu Hi Hown Hdraft. split.
  - unfold SubmitForm, mbind, action_bind.
    rewrite update_missing; [reflexivity |].
    intros g Hg [Hurl Hpub].
    rewrite (same_url_same_row s i f g Hwf Hi Hg Hurl) in Hpub. congruence.
  - set (f1 := Form.set_published true f).
    set (s1 := mkStore (<[i := f1]> (forms s)) (formSubmissions s)
                       (nextFormId s) (nextSubmissionId s)).
    assert (wf s1) as Hwf1.
    { apply updated_store_wf; [apply evolves_set_published | done | done]. }
    assert (forms s1 !! i = Some f1) as Hi1.
    { simpl. apply list_lookup_insert_eq. eapply lookup_lt_Some, Hi. }
    exists f1, s1, (Form.increment_submissions 1 f1). eexists.
    split_and!.
    + unfold PublishForm. rewrite Hu. by apply update_by_user_id.
    + unfold SubmitForm, mbind, action_bind.
      change (Form.shareURL f) with (Form.shareURL f1).
      rewrite (update_by_url_published _ s1 i f1 Hwf1 Hi1 eq_refl).
      reflexivity.
    + reflexivity.
    + reflexivity.
    + simpl. rewrite length_app. simpl. lia.
Qed.

Lemma publish_opens_submissions_witness :
  SubmitForm anonymous "tok-1" "{}" shared_store = (Throw P2025, shared_store) ∧
  ∃ (f1 : Form.t) (s1 : store) (f2 : Form.t) (s2 : store),
    PublishForm as_alice 1 shared_store = (Ok f1, s1) ∧
    SubmitForm anonymous "tok-1" "{}" s1 = (Ok f2, s2) ∧
    Form.published f2 = true ∧
    Form.submissions f2 = 2 ∧
    length (formSubmissions s2) = 2%nat.
Proof.
  apply (publish_opens_submissions as_alice anonymous alice "{}"
           shared_store 0%nat survey).
  - exact wf_shared_store.
  - reflexivity.
  - reflexivity.
  - reflexivity.
  - reflexivity.
Defined.

Lemma increment_visits_twice n f :
  Form.increment_visits n (Form.increment_visits 1 f) =
  Form.increment_visits (1 + n) f.
Proof. destruct f. unfold Form.increment_visits. simpl. f_equal. lia. Qed.

Lemma increment_visits_zero f : Form.increment_visits 0 f = f.
Proof. destruct f. unfold Form.increment_visits. simpl. f_equal. lia. Qed.

(** X15. Visits count fetches: after [n] calls of [GetFormContentByUrl] on
    the share URL of a stored form, one after the other and by whatever
    callers, that form has its visits counter exactly [n] higher, and
    nothing else in the store has changed. *)
Theorem visits_count_fetches
    (callers : list env) (formUrl : string) (s : store) (i : nat) (f : Form.t) :
  wf s →
  forms s !! i = Some f →
  Form.shareURL f = formUrl →
  run ((λ e, (e, ReqGetFormContentByUrl formUrl)) <$> callers) s =
    mkStore (<[i := Form.increment_visits (Z.of_nat (length callers)) f]>
               (forms s))
            (formSubmissions s) (nextFormId s) (nextSubmissionId s) ∧
  Form.visits (Form.increment_visits (Z.of_nat (length callers)) f) =
    Form.visits f + Z.of_nat (length callers).
Proof.
  intros Hwf Hi <-. split; [| reflexivity].
  revert s f Hwf Hi.
  induction callers as [|e callers IH]; intros s f Hwf Hi.
  - simpl. rewrite increment_visits_zero, list_insert_id by done. by destruct s.
  - set (f1 := Form.increment_visits 1 f).
    set (s1 := mkStore (<[i := f1]> (forms s)) (formSubmissions s)
                       (nextFormId s) (nextSubmissionId s)).
    assert (snd (serve e (ReqGetFormContentByUrl (Form.shareURL f)) s) = s1)
      as Hstep.
    { simpl. unfold reply, GetFormContentByUrl, mbind, action_bind.
      by rewrite (update_by_url _ s i f Hwf Hi). }
    assert (wf s1) as Hwf1.
    { apply updated_store_wf; [apply evolves_increment_visits | done | done]. }
    assert (forms s1 !! i = Some f1) as Hi1.
    { simpl. apply list_lookup_insert_eq. eapply lookup_lt_Some, Hi. }
    rewrite fmap_cons.
    change (run ((e, ReqGetFormContentByUrl (Form.shareURL f)) :: ?t) s)
      with (run t (snd (serve e (ReqGetFormContentByUrl (Form.shareURL f)) s))).
    rewrite Hstep.
    change (Form.shareURL f) with (Form.shareURL f1).
    rewrite (IH s1 f1 Hwf1 Hi1). unfold s1, f1. simpl forms.
    rewrite list_insert_insert_eq, increment_visits_twice.
    simpl. do 2 f_equal. f_equal. lia.
Qed.

Lemma visits_count_fetches_witness :
  run [(anonymous, ReqGetFormContentByUrl "tok-1");
       (as_bob, ReqGetFormContentByUrl "tok-1");
       (as_alice, ReqGetFormContentByUrl "tok-1")] shared_store =
    mkStore [Form.increment_visits 3 survey; quiz] [answer] 3 2 ∧
  Form.visits (Form.increment_visits 3 survey) = Form.visits survey + 3.
Proof.
  apply (visits_count_fetches [anonymous; as_bob; as_alice] "tok-1"
           shared_store 0%nat survey).
  - exact wf_shared_store.
  - reflexivity.
  - reflexivity.
Defined.

(** ** Statistics are per user *)

Lemma filter_insert_outside {A : Type} (P : A → Prop) `{!∀ x, Decision (P x)}
    (l : list A) i x y :
  l !! i = Some x → ¬ P x → ¬ P y → filter P (<[i := y]> l) = filter P l.
Proof.
  revert i. induction l as [|z l IH]; intros [|i] Hi Hx Hy; simpl in *;
    try discriminate.
  - injection Hi as ->.
    by rewrite !filter_cons_False.
  - rewrite !filter_cons. by rewrite (IH i Hi Hx Hy).
Qed.

Lemma update_keeps_others (P Q : Form.t → Prop) `{!∀ f, Decision (P f)}
    `{!∀ f, Decision (Q f)} data s :
  (∀ f, P f → ¬ Q f) → (∀ f, P f → ¬ Q (data f)) →
  filter Q (forms (snd (prisma.update P data s))) = filter Q (forms s).
Proof.
  intros Hout Hout'. unfold prisma.update.
  destruct (list_find P (forms s)) as [[j g]|] eqn:Hfind; simpl; [| done].
  apply list_find_Some in Hfind as (Hj & HP & _).
  apply (filter_insert_outside Q _ j g); auto.
Qed.

(** X16. What other users do never shows in a user's statistics: after an
    owner-scoped request served for a different user, or for nobody,
    [GetFormStats] for user [u] returns what it returned before. *)
Theorem stats_unaffected_by_other_users
    (e e' : env) (r : request) (u : User.t) (s : store) :
  owner_scoped r = true →
  currentUser e = Some u →
  (∀ u', currentUser e' = Some u' → User.id u' ≠ User.id u) →
  fst (GetFormStats e (snd (serve e' r s))) = fst (GetFormStats e s).
Proof.
  intros Hr Hu Hother.
  assert (filter (owned_by u) (forms (snd (serve e' r s))) =
          filter (owned_by u) (forms s)) as Hsame.
  { destruct r; simpl in Hr; try discriminate; simpl; unfold reply.
    - unfold GetFormStats. destruct (currentUser e'); [| done].
      unfold mbind, action_bind, prisma.aggregate_sum.
      destruct (filter _ (forms s)); simpl; done.
    - unfold CreateForm. destruct (negb _); [done |].
      destruct (currentUser e') as [u'|] eqn:Hu'; [| done].
      unfold mbind, action_bind, prisma.create.
      case_decide; simpl; [done |].
      rewrite filter_app, filter_cons_False, filter_nil, app_nil_r; [done |].
      unfold owned_by. simpl. exact (Hother u' eq_refl).
    - unfold GetForm. by destruct (currentUser e').
    - unfold GetFormById. by destruct (currentUser e').
    - unfold UpdateFormContent.
      destruct (currentUser e') as [u'|] eqn:Hu'; [| done].
      pose proof (update_keeps_others (where_user_id u' id) (owned_by u)
                    (Form.set_content jsonContent) s) as Hk.
      destruct (prisma.update _ _ s) as [[form|err] s']; simpl in *;
        apply Hk; unfold owned_by; simpl; intros f [Hown _] Hmine;
        apply (Hother u' eq_refl); congruence.
    - unfold PublishForm.
      destruct (currentUser e') as [u'|] eqn:Hu'; [| done].
      pose proof (update_keeps_others (where_user_id u' id) (owned_by u)
                    (Form.set_published true) s) as Hk.
      destruct (prisma.update _ _ s) as [[form|err] s']; simpl in *;
        apply Hk; unfold owned_by; simpl; intros f [Hown _] Hmine;
        apply (Hother u' eq_refl); congruence.
    - unfold GetFormWithSubmissions. by destruct (currentUser e'). }
  unfold GetFormStats. rewrite Hu.
  unfold mbind, action_bind, prisma.aggregate_sum. rewrite Hsame.
  by destruct (filter (owned_by u) (forms s)).
Qed.

Lemma stats_unaffected_by_other_users_witness :
  fst (GetFormStats as_alice
         (snd (serve as_bob (ReqCreateForm (mkData "Poll" None)) shared_store))) =
  fst (GetFormStats as_alice shared_store).
Proof.
  apply (stats_unaffected_by_other_users as_alice as_bob
           (ReqCreateForm (mkData "Poll" None)) alice shared_store).
  - reflexivity.
  - reflexivity.
  - intros u' Hu'. injection Hu' as <-. vm_compute. discriminate.
Defined.

(** ** The publish button *)

(** X17. The handler of the publish button, for a resolved user on the id of
    a form they own, publishes the form, raises the success toast and then
    refreshes the router. When no user is resolved or no form of the user
    has the id, it raises the one generic error toast instead, does not
    refresh, and the store stays as it was. *)
Theorem publishForm_spec (e : env) (id : Z) (s : store) :
  wf s →
  (∀ (u : User.t) (i : nat) (f : Form.t),
     currentUser e = Some u →
     forms s !! i = Some f →
     Form.id f = id →
     Form.userId f = User.id u →
     PublishFormBtn.publishForm e id s =
       ([toast "Success" "Your form has been published!"; router_refresh],
        mkStore (<[i := Form.set_published true f]> (forms s))
                (formSubmissions s) (nextFormId s) (nextSubmissionId s))) ∧
  ((∀ u f, currentUser e = Some u → f ∈ forms s → Form.id f = id →
           Form.userId f ≠ User.id u) →
   PublishFormBtn.publishForm e id s =
     ([toast "Error" "Something went wrong, please try again."], s)).
Proof.
  intros Hwf. unfold PublishFormBtn.publishForm, PublishForm. split.
  - intros u i f Hu Hi <- Hown. rewrite Hu.
    by rewrite (update_by_user_id _ s u i f Hwf Hi Hown).
  - intros Hno. destruct (currentUser e) as [u|]; [| reflexivity].
    rewrite update_missing; [reflexivity |].
    intros f Hf [Hown Hid]. exact (Hno u f eq_refl Hf Hid Hown).
Qed.

Lemma publishForm_spec_witness :
  PublishFormBtn.publishForm as_alice 1 shared_store =
    ([toast "Success" "Your form has been published!"; router_refresh],
     mkStore [published_survey; quiz] [answer] 3 2) ∧
  PublishFormBtn.publishForm anonymous 1 shared_store =
    ([toast "Error" "Something went wrong, please try again."], shared_store).
Proof.
  split.
  - apply (proj1 (publishForm_spec as_alice 1 shared_store wf_shared_store)
             alice 0%nat survey);
      reflexivity.
  - apply (proj2 (publishForm_spec anonymous 1 shared_store wf_shared_store)).
    intros u f Hu. discriminate Hu.
Defined.

(** X18. The publish button never reports a success that did not happen:
    on any store and for any caller, either it raises the success toast and
    refreshes, and then the resulting store holds a published form with the
    given id owned by the resolved user; or it raises the error toast
    alone, and then the store is unchanged. *)
Theorem publishForm_toast_is_truthful (e : env) (id : Z) (s : store) :
  (fst (PublishFormBtn.publishForm e id s) =
     [toast "Success" "Your form has been published!"; router_refresh] ∧
   ∃ (u : User.t) (f : Form.t),
     currentUser e = Some u ∧
     f ∈ forms (snd (PublishFormBtn.publishForm e id s)) ∧
     Form.id f = id ∧
     Form.userId f = User.id u ∧
     Form.published f = true) ∨
  (fst (PublishFormBtn.publishForm e id s) =
     [toast "Error" "Something went wrong, please try again."] ∧
   snd (PublishFormBtn.publishForm e id s) = s).
Proof.
  unfold PublishFormBtn.publishForm, PublishForm.
  destruct (currentUser e) as [u|]; [| by right].
  unfold prisma.update.
  destruct (list_find _ (forms s)) as [[i f]|] eqn:Hfind; [| by right].
  apply list_find_Some in Hfind as (Hi & [Hown Hid] & _).
  left. split; [reflexivity |].
  exists u, (Form.set_published true f). split_and!; try done.
  simpl. apply list_elem_of_lookup. exists i.
  apply list_lookup_insert_eq. eapply lookup_lt_Some, Hi.
Qed.
